(** * rfc6750: extraction of a bearer token from a request

    A verification development for [index.js], the single module of the
    package.  The module exports one function, [extractTokenFromRequest],
    which looks for an access token in the [Authorization] header, the
    body, the query string and the [Cookie] header of a request, in that
    order.

    Modelling conventions.
    - A JavaScript string is a [string]; the separator [' '] of [split]
      is the character [" "].
    - The objects [query], [headers] and [body] are mappings from property
      names to strings, [gmap string string]: a lookup sees the own
      properties of the object and nothing of [Object.prototype].  It is
      the lookup of JavaScript when the key is an own property of the
      object or no member of [Object.prototype], as [Authorization],
      [Cookie] and [access_token] are; a statement that reads a header
      under a key of the configuration without having it as an own
      property asks for that with [inherited].
    - The objects the caller passes live in a [Store] that every step of
      the function threads through, so that what the function does to its
      arguments is part of its result.
    - A call either returns a value or throws: [completion]. *)

From Stdlib Require Import String Ascii ZArith List.
From stdpp Require Import base option gmap strings list.

Local Open Scope string_scope.
Local Open Scope Z_scope.

(** ** Strings *)

Module JsString.

(** [s.indexOf(t)]: the position of the first occurrence of [t] in [s],
    or [-1]. *)
Definition indexOf (s t : string) : Z :=
  match String.index 0 t s with
  | Some n => Z.of_nat n
  | None => -1
  end.

(** [s.split(sep)] for a separator of one character: the maximal pieces
    of [s] between the occurrences of [sep], empty pieces included. *)
Fixpoint split (sep : ascii) (s : string) : list string :=
  match s with
  | EmptyString => [EmptyString]
  | String c s' =>
      if Ascii.eqb c sep then EmptyString :: split sep s'
      else match split sep s' with
           | [] => [String c EmptyString]
           | piece :: pieces => String c piece :: pieces
           end
  end.

(** [c] occurs in [s]. *)
Fixpoint mem (c : ascii) (s : string) : bool :=
  match s with
  | EmptyString => false
  | String d s' => Ascii.eqb d c || mem c s'
  end.

(** [t] occurs in [s] as a substring. *)
Definition includes (s t : string) : Prop :=
  exists p r : string, s = p ++ t ++ r.

End JsString.

(** ** Values, objects and completions *)

(** The values the function handles: [undefined], [null] and strings. *)
Inductive value : Type :=
| VUndefined
| VNull
| VString (s : string).

(** ToBoolean: [undefined], [null] and the empty string are falsy. *)
Definition truthy (v : value) : bool :=
  match v with
  | VUndefined | VNull => false
  | VString s => negb (String.eqb s "")
  end.

(** What a call can throw. *)
Inductive error : Type :=
| ReferenceError (name : string)
| TypeError (msg : string).

(** How a call ends. *)
Inductive completion (A : Type) : Type :=
| Normal (a : A)
| Throw (e : error).
Arguments Normal {A} a.
Arguments Throw {A} e.

(** The request object [{ query, headers, body }]; a property that is
    missing or [undefined] is [None]. *)
Record requestObject : Type := {
  query : option (gmap string string);
  headers : option (gmap string string);
  body : option (gmap string string)
}.

(** The second argument [{ authorizationHeaderKey, cookieHeaderKey }]; a
    property that is missing or [undefined] is [None]. *)
Record config : Type := {
  authorizationHeaderKey : option string;
  cookieHeaderKey : option string
}.

(** The objects of the caller that a call can reach: its two arguments,
    each [None] when the argument is [undefined] or not passed. *)
Record Store : Type := {
  requestView : option requestObject;
  configuration : option config
}.

(** The three objects inside the request object, by the name of the
    parameter that is bound to them. *)
Inductive ref : Type := Query | Headers | Body.

(** The object a reference points to in a store, if the request object
    has it. *)
Definition deref (st : Store) (r : ref) : option (gmap string string) :=
  req ← requestView st;
  match r with
  | Query => query req
  | Headers => headers req
  | Body => body req
  end.

(** The module [cookie], with its function [parse]. *)
Record CookieModule : Type := {
  parse : string -> gmap string string
}.

(** The global object, as far as the function refers to it: [index.js]
    neither declares nor requires [cookie], so the identifier is looked
    up there. *)
Record Globals : Type := {
  cookie : option CookieModule
}.

(** The global object of Node.js: it has no property [cookie]. *)
Definition node : Globals := {| cookie := None |}.

(** ** Computations over the store *)

Definition M (A : Type) : Type := Store -> Store * completion A.

Definition ret {A : Type} (a : A) : M A := fun st => (st, Normal a).

Definition throw {A : Type} (e : error) : M A := fun st => (st, Throw e).

Definition bind {A B : Type} (m : M A) (k : A -> M B) : M B :=
  fun st =>
    match m st with
    | (st', Normal a) => k a st'
    | (st', Throw e) => (st', Throw e)
    end.

Notation "'let!' x ':=' m 'in' k" := (bind m (fun x => k))
  (at level 10, x name, m at level 100, k at level 200).

(** Binding a parameter of the pattern [{ query, headers, body } = {}]:
    a reference to the object, when the property holds one. *)
Definition bindParam (r : ref) : M (option ref) :=
  fun st => (st, Normal (match deref st r with Some _ => Some r | None => None end)).

(** Binding a parameter of the pattern
    [{ authorizationHeaderKey = ..., cookieHeaderKey = ... } = {}]: the
    property of the configuration, or the default when the configuration
    or the property is missing. *)
Definition bindKey (key : config -> option string) (dflt : string) : M string :=
  fun st => (st, Normal (default dflt (configuration st ≫= key))).

(** [o[k]] on an object of the store, for a key [k] that is an own
    property of the object or no member of [Object.prototype]: the own
    properties are looked up. *)
Definition getProp (r : ref) (k : string) : M value :=
  fun st =>
    (st, Normal (match deref st r ≫= (.!! k) with
                 | Some s => VString s
                 | None => VUndefined
                 end)).

(** [o[k] = s] on an object of the store.  The function has no such
    assignment; the operation shows what a change of the store is. *)
Definition setProp (r : ref) (k s : string) : M unit :=
  fun st =>
    let put (o : option (gmap string string)) := insert k s <$> o in
    (match requestView st with
     | Some req =>
         {| requestView :=
              Some match r with
                   | Query => {| query := put (query req); headers := headers req;
                                 body := body req |}
                   | Headers => {| query := query req; headers := put (headers req);
                                   body := body req |}
                   | Body => {| query := query req; headers := headers req;
                                body := put (body req) |}
                   end;
            configuration := configuration st |}
     | None => st
     end, Normal tt).

(** [o ? o[k] : null]. *)
Definition propOrNull (o : option ref) (k : string) : M value :=
  match o with
  | Some r => getProp r k
  | None => ret VNull
  end.

(** [v.indexOf(t)]. *)
Definition callIndexOf (v : value) (t : string) : M Z :=
  match v with
  | VString s => ret (JsString.indexOf s t)
  | _ => throw (TypeError "indexOf is not a function")
  end.

(** [v.split(sep)]. *)
Definition callSplit (v : value) (sep : ascii) : M (list string) :=
  match v with
  | VString s => ret (JsString.split sep s)
  | _ => throw (TypeError "split is not a function")
  end.

(** [a[i]] on an array of strings: [undefined] out of range. *)
Definition element (a : list string) (i : nat) : value :=
  match a !! i with
  | Some s => VString s
  | None => VUndefined
  end.

(** [cookie.parse(v)]: the identifier [cookie] is resolved first. *)
Definition callCookieParse (g : Globals) (v : value) : M (gmap string string) :=
  match cookie g with
  | None => throw (ReferenceError "cookie")
  | Some c =>
      match v with
      | VString s => ret (parse c s)
      | _ => throw (TypeError "argument str must be a string")
      end
  end.

(** [m[k]] on a mapping that is a local value of the call. *)
Definition lookupProp (m : gmap string string) (k : string) : value :=
  match m !! k with
  | Some s => VString s
  | None => VUndefined
  end.

(** ** The module [index.js] *)

Definition BEARER_SCHEME : string := "Bearer".
Definition AUTHORIZATION_HEADER : string := "Authorization".
Definition COOKIE_HEADER : string := "Cookie".
Definition ACCESS_TOKEN_PARAMETER : string := "access_token".

(** [extractTokenFromRequest], run on the store that holds its two
    arguments. *)
Definition extractTokenFromRequest (g : Globals) : M value :=
  let! query := bindParam Query in
  let! headers := bindParam Headers in
  let! body := bindParam Body in
  let! authorizationHeaderKey := bindKey authorizationHeaderKey AUTHORIZATION_HEADER in
  let! cookieHeaderKey := bindKey cookieHeaderKey COOKIE_HEADER in
  let! authHeader := propOrNull headers authorizationHeaderKey in
  let! cookieHeader := propOrNull headers cookieHeaderKey in
  let! fromQuery := propOrNull query ACCESS_TOKEN_PARAMETER in
  let! fromBody := propOrNull body ACCESS_TOKEN_PARAMETER in
  let! matched :=
    (if truthy authHeader
     then let! i := callIndexOf authHeader (BEARER_SCHEME ++ " ") in
          ret (negb (i =? -1))
     else ret false) in
  if matched then
    let! fields := callSplit authHeader " " in
    ret (element fields 1)
  else if truthy fromBody then
    ret fromBody
  else if truthy fromQuery then
    ret fromQuery
  else if truthy cookieHeader then
    let! cookies := callCookieParse g cookieHeader in
    let fromCookie := lookupProp cookies ACCESS_TOKEN_PARAMETER in
    if truthy fromCookie then ret fromCookie else ret VUndefined
  else
    ret VNull.

(** The call [extractTokenFromRequest(req, cfg)]: the store after the
    call and how the call ended. *)
Definition call (g : Globals) (req : option requestObject) (cfg : option config)
  : Store * completion value :=
  extractTokenFromRequest g {| requestView := req; configuration := cfg |}.

(** How the call [extractTokenFromRequest(req, cfg)] ends. *)
Definition outcome (g : Globals) (req : option requestObject) (cfg : option config)
  : completion value :=
  snd (call g req cfg).

(** ** Vocabulary of the statements *)

(** The key under which the authorization header is read. *)
Definition authKey (cfg : option config) : string :=
  default AUTHORIZATION_HEADER (cfg ≫= authorizationHeaderKey).

(** The key under which the cookie header is read. *)
Definition cookieKey (cfg : option config) : string :=
  default COOKIE_HEADER (cfg ≫= cookieHeaderKey).

(** The property [k] of an object that may be missing. *)
Definition prop (o : option (gmap string string)) (k : string) : option string :=
  match o with
  | Some m => m !! k
  | None => None
  end.

(** The header of a request under a key, when the request has headers and
    they have the key. *)
Definition header (req : option requestObject) (k : string) : option string :=
  match req with
  | Some r => prop (headers r) k
  | None => None
  end.

(** [body.access_token] and [query.access_token]. *)
Definition bodyToken (req : option requestObject) : option string :=
  match req with
  | Some r => prop (body r) ACCESS_TOKEN_PARAMETER
  | None => None
  end.

Definition queryToken (req : option requestObject) : option string :=
  match req with
  | Some r => prop (query r) ACCESS_TOKEN_PARAMETER
  | None => None
  end.

(** The headers that hold, under the standard keys, what [a] and [c]
    give. *)
Definition standardHeaders (a c : option string) : gmap string string :=
  let m : gmap string string :=
    match a with
    | Some x => {[ AUTHORIZATION_HEADER := x ]}
    | None => ∅
    end in
  match c with
  | Some y => <[ COOKIE_HEADER := y ]> m
  | None => m
  end.

(** The request that holds under the standard keys what [req] holds
    under the keys [ak] and [ck], with the query and the body of [req]. *)
Definition relabel (req : option requestObject) (ak ck : string) : option requestObject :=
  Some {| query := req ≫= query;
          headers := Some (standardHeaders (header req ak) (header req ck));
          body := req ≫= body |}.

(** [t] is the second field of [h] between spaces: what stands between
    the first space of [h] and the second one, or the end of [h] when
    there is no second space. *)
Definition secondField (h t : string) : Prop :=
  exists a rest : string,
    h = a ++ " " ++ t ++ rest /\
    JsString.mem " " a = false /\
    JsString.mem " " t = false /\
    (rest = "" \/ exists r, rest = String " " r).

(** A property that gives no token: it is missing or the empty string. *)
Definition noToken (o : option string) : Prop :=
  o = None \/ o = Some "".

(** A value read from an optional string: [undefined] when it is
    missing. *)
Definition valueOf (o : option string) : value :=
  match o with
  | Some s => VString s
  | None => VUndefined
  end.

(** The test of the first branch on the authorization header. *)
Definition bearer (authHeader : option string) : bool :=
  match authHeader with
  | Some h => negb (String.eqb h "") && negb (JsString.indexOf h "Bearer " =? -1)
  | None => false
  end.

(** The chain of tests of the function on the four values it has read. *)
Definition chain (g : Globals) (authHeader cookieHeader fromQuery fromBody : option string)
  : completion value :=
  if bearer authHeader then
    Normal (element (JsString.split " " (default "" authHeader)) 1)
  else if truthy (valueOf fromBody) then Normal (valueOf fromBody)
  else if truthy (valueOf fromQuery) then Normal (valueOf fromQuery)
  else if truthy (valueOf cookieHeader) then
    match cookie g with
    | None => Throw (ReferenceError "cookie")
    | Some m =>
        let fromCookie :=
          lookupProp (parse m (default "" cookieHeader)) ACCESS_TOKEN_PARAMETER in
        Normal (if truthy fromCookie then fromCookie else VUndefined)
    end
  else Normal VNull.

(** ** Requests of the examples *)

Definition headersOnly (hs : gmap string string) : option requestObject :=
  Some {| query := Some ∅; headers := Some hs; body := Some ∅ |}.

(** A request with a token in each of the four places. *)
Definition allSources : option requestObject :=
  Some {| query := Some {[ "access_token" := "tok2" ]};
          headers := Some {[ "Authorization" := "Bearer abc123";
                             "Cookie" := "access_token=tok3; other=x" ]};
          body := Some {[ "access_token" := "tok1" ]} |}.

(** A request with a header of another scheme and a token in the body
    and in the query. *)
Definition basicWithTokens : option requestObject :=
  Some {| query := Some {[ "access_token" := "tok2" ]};
          headers := Some {[ "Authorization" := "Basic dXNlcjpwdw==" ]};
          body := Some {[ "access_token" := "tok1" ]} |}.

(** A request with a token in each of the four places, whose
    authorization header has two spaces after the scheme. *)
Definition allSourcesDoubled : option requestObject :=
  Some {| query := Some {[ "access_token" := "tok2" ]};
          headers := Some {[ "Authorization" := "Bearer  tok";
                             "Cookie" := "access_token=tok3; other=x" ]};
          body := Some {[ "access_token" := "tok1" ]} |}.

(** ** Vocabulary of the further statements *)

(** The names of the members of [Object.prototype], which every object
    written [{ ... }] inherits. *)
Definition objectPrototypeKeys : list string :=
  [ "constructor"; "hasOwnProperty"; "isPrototypeOf"; "propertyIsEnumerable";
    "toLocaleString"; "toString"; "valueOf"; "__proto__";
    "__defineGetter__"; "__defineSetter__"; "__lookupGetter__";
    "__lookupSetter__" ].

(** [k] names a member of [Object.prototype]: [o[k]] has a value though
    [k] is no own property of [o]. *)
Definition inherited (k : string) : bool :=
  existsb (String.eqb k) objectPrototypeKeys.

(** A request with a header of another scheme, an empty token in the
    body and in the query and an empty cookie header. *)
Definition basicWithEmptyTokens : option requestObject :=
  Some {| query := Some {[ "access_token" := "" ]};
          headers := Some {[ "Authorization" := "Basic dXNlcjpwdw==";
                             "Cookie" := "" ]};
          body := Some {[ "access_token" := "" ]} |}.

(** A request with the authorization header under [X-Auth] and another
    one under [Authorization]. *)
Definition customKeyRequest : option requestObject :=
  Some {| query := Some ∅;
          headers := Some {[ "X-Auth" := "Bearer abc123";
                             "Authorization" := "Bearer other" ]};
          body := Some ∅ |}.

(** A value read from a request, an empty string counted as missing. *)
Definition dropEmpty (o : option string) : option string :=
  match o with
  | Some s => if String.eqb s "" then None else Some s
  | None => None
  end.

(** The request with an empty object for each of [query], [headers] and
    [body] that is missing; [undefined] becomes the request of three
    empty objects. *)
Definition withEmptyObjects (req : option requestObject) : option requestObject :=
  Some {| query := Some (default ∅ (req ≫= query));
          headers := Some (default ∅ (req ≫= headers));
          body := Some (default ∅ (req ≫= body)) |}.

(** [a.join(sep)] on an array of strings, for a separator of one
    character. *)
Fixpoint join (sep : ascii) (a : list string) : string :=
  match a with
  | [] => ""
  | x :: rest =>
      match rest with
      | [] => x
      | _ :: _ => x ++ String sep (join sep rest)
      end
  end.

(** A request with a token in the query and a cookie header. *)
Definition queryAndCookie : option requestObject :=
  Some {| query := Some {[ "access_token" := "tok2" ]};
          headers := Some {[ "Cookie" := "access_token=tok3" ]};
          body := Some ∅ |}.

(** A module for [cookie] whose [parse] finds no cookie. *)
Definition noCookies : CookieModule := {| parse := fun _ => ∅ |}.

(** ** Facts about strings *)

Section string_facts.

Lemma append_cons (c : ascii) (a b : string) :
  String c a ++ b = String c (a ++ b).
Proof. reflexivity. Qed.

Lemma append_nil_r (s : string) : s ++ "" = s.
Proof.
  induction s as [|c s IH]; [reflexivity|].
  now rewrite append_cons, IH.
Qed.

Lemma append_assoc (a b c : string) : (a ++ b) ++ c = a ++ b ++ c.
Proof.
  induction a as [|x a IH]; [reflexivity|].
  now rewrite !append_cons, IH.
Qed.

Lemma prefix_spec (t s : string) :
  String.prefix t s = true <-> exists r, s = t ++ r.
Proof.
  revert s; induction t as [|a t IH]; intros s.
  - split; [intros _; exists s; reflexivity | intros _; destruct s; reflexivity].
  - destruct s as [|b s]; simpl.
    + split; [discriminate | intros [r Hr]; discriminate].
    + destruct (ascii_dec a b) as [->|Hab].
      * rewrite IH. split; intros [r Hr]; exists r;
          [now rewrite append_cons, Hr | now inversion Hr].
      * split; [discriminate|].
        intros [r Hr]. rewrite append_cons in Hr. congruence.
Qed.

Lemma index_includes (t s : string) :
  String.index 0 t s <> None <-> JsString.includes s t.
Proof.
  induction s as [|c s IH].
  - destruct t as [|a t]; simpl.
    + split; [intros _; exists "", ""; reflexivity | discriminate].
    + split; [congruence | intros ([|x p] & r & Hr); discriminate].
  - cbn [String.index].
    destruct (String.prefix t (String c s)) eqn:Hp.
    + split; [intros _ | discriminate].
      apply prefix_spec in Hp as [r Hr]. exists "", r. exact Hr.
    + split.
      * intros H. destruct (String.index 0 t s); [|congruence].
        destruct IH as [IH _]. destruct IH as (p & r & Hr); [discriminate|].
        exists (String c p), r. now rewrite append_cons, Hr.
      * intros ([|x p] & r & Hr).
        -- assert (String.prefix t (String c s) = true) as Hp'
             by (apply prefix_spec; exists r; exact Hr).
           congruence.
        -- inversion Hr; subst.
           destruct IH as [_ IH].
           destruct (String.index 0 t (p ++ t ++ r)); [discriminate|].
           exfalso. apply IH; [exists p, r|]; reflexivity.
Qed.

(** [s.indexOf(t) !== -1] says that [t] occurs in [s]. *)
Lemma indexOf_includes (s t : string) :
  (JsString.indexOf s t =? -1) = false <-> JsString.includes s t.
Proof.
  rewrite <- index_includes. unfold JsString.indexOf.
  destruct (String.index 0 t s) as [n|].
  - split; [discriminate | intros _; apply Z.eqb_neq; lia].
  - split; [discriminate | congruence].
Qed.

Lemma split_not_nil (sep : ascii) (s : string) : JsString.split sep s <> [].
Proof.
  destruct s as [|c s]; simpl; [discriminate|].
  destruct (Ascii.eqb c sep); [discriminate|].
  destruct (JsString.split sep s); discriminate.
Qed.

(** A string without the separator is one field. *)
Lemma split_no_sep (sep : ascii) (a : string) :
  JsString.mem sep a = false -> JsString.split sep a = [a].
Proof.
  induction a as [|c a IH]; simpl; [reflexivity|].
  intros H. apply orb_false_iff in H as [Hc Ha].
  rewrite Hc, (IH Ha). reflexivity.
Qed.

(** The first field ends at the first separator. *)
Lemma split_first (sep : ascii) (a b : string) :
  JsString.mem sep a = false ->
  JsString.split sep (a ++ String sep b) = a :: JsString.split sep b.
Proof.
  induction a as [|c a IH]; [intros _|intros H].
  - change ("" ++ String sep b) with (String sep b). simpl.
    now rewrite Ascii.eqb_refl.
  - simpl in H. apply orb_false_iff in H as [Hc Ha].
    rewrite append_cons. simpl. rewrite Hc, (IH Ha). reflexivity.
Qed.

(** The first field of a string that goes on after it, if at all, with
    a separator. *)
Lemma split_head (sep : ascii) (b rest : string) :
  JsString.mem sep b = false ->
  rest = "" \/ (exists r, rest = String sep r) ->
  exists fields, JsString.split sep (b ++ rest) = b :: fields.
Proof.
  intros Hb [->|[r ->]].
  - rewrite append_nil_r, (split_no_sep _ _ Hb). now exists [].
  - rewrite (split_first _ _ _ Hb). eauto.
Qed.

(** Every string is a piece without the separator and then either
    nothing or a separator and the rest. *)
Lemma first_field_exists (sep : ascii) (s : string) :
  exists b rest, s = b ++ rest /\ JsString.mem sep b = false /\
                 (rest = "" \/ exists r, rest = String sep r).
Proof.
  induction s as [|c s (b & rest & Hs & Hb & Hrest)].
  - exists "", "". auto.
  - destruct (Ascii.eqb c sep) eqn:Hc.
    + apply Ascii.eqb_eq in Hc as ->. exists "", (String sep s). eauto.
    + exists (String c b), rest. rewrite append_cons. simpl.
      rewrite Hc, Hb, Hs. auto.
Qed.

Lemma mem_app (c : ascii) (a b : string) :
  JsString.mem c (a ++ b) = JsString.mem c a || JsString.mem c b.
Proof.
  induction a as [|x a IH]; [reflexivity|].
  rewrite append_cons. simpl. now rewrite IH, orb_assoc.
Qed.

Lemma includes_mem_space (h : string) :
  JsString.includes h "Bearer " -> JsString.mem " " h = true.
Proof.
  intros (p & r & ->). rewrite mem_app. apply orb_true_iff. right. reflexivity.
Qed.

End string_facts.

(** ** The call as a chain of tests *)

Section call_facts.

Variable g : Globals.

(** A call leaves the store as it found it and ends as the chain of
    tests on the four values it reads. *)
Lemma call_chain (req : option requestObject) (cfg : option config) :
  call g req cfg =
    ({| requestView := req; configuration := cfg |},
     chain g (header req (authKey cfg)) (header req (cookieKey cfg))
             (queryToken req) (bodyToken req)).
Proof.
  unfold call, chain, header, queryToken, bodyToken.
  set (ak := authKey cfg). set (ck := cookieKey cfg).
  unfold extractTokenFromRequest, callCookieParse, bind, bindParam, bindKey, deref.
  change (BEARER_SCHEME ++ " ") with "Bearer ".
  cbn. fold (authKey cfg) (cookieKey cfg). fold ak ck.
  destruct req as [[[q|] [h|] [b|]]|]; cbn;
    repeat match goal with
      | |- context [?m !! ?k] =>
          let o := fresh "o" in generalize (m !! k); intros o
      end;
    repeat match goal with
      | o : option string |- _ => destruct o as [?|]
      end;
    cbn;
    repeat match goal with
      | |- context [String.eqb ?x ""] => destruct (String.eqb x ""); cbn
      | |- context [Z.eqb ?x ?y] => destruct (Z.eqb x y); cbn
      | |- context [cookie g] => destruct (cookie g); cbn
      | |- context [truthy ?v] => destruct (truthy v); cbn
      end;
    reflexivity.
Qed.

Lemma outcome_chain (req : option requestObject) (cfg : option config) :
  outcome g req cfg =
    chain g (header req (authKey cfg)) (header req (cookieKey cfg))
            (queryToken req) (bodyToken req).
Proof. unfold outcome. now rewrite call_chain. Qed.

End call_facts.

(** ** The header branch *)

Section header_facts.

(** The test of the first branch holds exactly of the headers in which
    ["Bearer "] occurs. *)
Lemma bearer_includes (h : string) :
  bearer (Some h) = true <-> JsString.includes h "Bearer ".
Proof.
  unfold bearer. rewrite andb_true_iff, !negb_true_iff, indexOf_includes.
  split; [tauto|]. intros H. split; [|exact H].
  destruct H as ([|c p] & r & ->); reflexivity.
Qed.

Lemma bearer_excludes (o : option string) :
  (forall h, o = Some h -> ~ JsString.includes h "Bearer ") -> bearer o = false.
Proof.
  intros H. destruct o as [h|]; [|reflexivity].
  apply not_true_is_false. intros Hb. apply bearer_includes in Hb.
  exact (H h eq_refl Hb).
Qed.

(** Element 1 of the split is the second field. *)
Lemma secondField_element (h t : string) :
  secondField h t -> element (JsString.split " " h) 1 = VString t.
Proof.
  intros (a & rest & -> & Ha & Ht & Hrest).
  change (" " ++ t ++ rest) with (String " " (t ++ rest)).
  rewrite (split_first _ _ _ Ha).
  destruct (split_head " " t rest Ht Hrest) as [fields ->]. reflexivity.
Qed.

Lemma secondField_unique (h t u : string) :
  secondField h t -> secondField h u -> t = u.
Proof.
  intros Ht%secondField_element Hu%secondField_element. congruence.
Qed.

(** A string with a space has a second field. *)
Lemma secondField_exists (h : string) :
  JsString.mem " " h = true -> exists t, secondField h t.
Proof.
  intros Hh.
  destruct (first_field_exists " " h) as (a & rest & -> & Ha & [->|[r ->]]).
  - rewrite append_nil_r in Hh. congruence.
  - destruct (first_field_exists " " r) as (t & rest & -> & Ht & Hrest).
    exists t, a, rest. auto.
Qed.

(** What the first branch returns. *)
Lemma header_branch (g : Globals) (req : option requestObject)
    (cfg : option config) (h : string) :
  header req (authKey cfg) = Some h ->
  JsString.includes h "Bearer " ->
  outcome g req cfg = Normal (element (JsString.split " " h) 1).
Proof.
  intros Hh Hb%bearer_includes. rewrite outcome_chain, Hh. unfold chain.
  now rewrite Hb.
Qed.

Lemma header_branch_field (g : Globals) (req : option requestObject)
    (cfg : option config) (h : string) :
  header req (authKey cfg) = Some h ->
  JsString.includes h "Bearer " ->
  exists t, secondField h t /\ outcome g req cfg = Normal (VString t).
Proof.
  intros Hh Hb.
  destruct (secondField_exists h (includes_mem_space h Hb)) as [t Ht].
  exists t. split; [exact Ht|].
  now rewrite (header_branch g req cfg h Hh Hb), (secondField_element h t Ht).
Qed.

End header_facts.

(** ** The claims on the header branch *)

(** C3. When the authorization header holds ["Bearer "], the call returns
    the token of the header, its second field between spaces, and so does
    every call on a request with the same authorization header: the body,
    the query, the cookie header and the binding of [cookie] play no
    part. *)
Theorem header_token_takes_precedence (g : Globals) (req : option requestObject)
    (cfg : option config) (h : string) :
  header req (authKey cfg) = Some h ->
  JsString.includes h "Bearer " ->
  exists t,
    secondField h t /\
    outcome g req cfg = Normal (VString t) /\
    forall g' req', header req' (authKey cfg) = Some h ->
                    outcome g' req' cfg = Normal (VString t).
Proof.
  intros Hh Hb.
  destruct (header_branch_field g req cfg h Hh Hb) as (t & Ht & Hout).
  exists t. repeat split; [exact Ht | exact Hout |].
  intros g' req' Hh'.
  now rewrite (header_branch g' req' cfg h Hh' Hb), (secondField_element h t Ht).
Qed.

Lemma header_token_takes_precedence_witness :
  header allSources (authKey None) = Some "Bearer abc123" /\
  JsString.includes "Bearer abc123" "Bearer " /\
  outcome node allSources None = Normal (VString "abc123") /\
  exists t,
    secondField "Bearer abc123" t /\
    outcome node allSources None = Normal (VString t) /\
    forall g' req', header req' (authKey None) = Some "Bearer abc123" ->
                    outcome g' req' None = Normal (VString t).
Proof.
  assert (header allSources (authKey None) = Some "Bearer abc123") as Hh
    by reflexivity.
  assert (JsString.includes "Bearer abc123" "Bearer ") as Hb
    by (exists "", "abc123"; reflexivity).
  split; [exact Hh|]. split; [exact Hb|]. split; [reflexivity|].
  exact (header_token_takes_precedence node allSources None "Bearer abc123" Hh Hb).
Defined.

(** C4. When the authorization header holds ["Bearer "], the call returns
    the second field of the header between spaces and no more: the result
    has no space, and for a header ["Bearer " ++ r] it is the part of [r]
    before the first space of [r], which is not [r] when [r] has a
    space. *)
Theorem header_token_is_second_field (g : Globals) (req : option requestObject)
    (cfg : option config) (h : string) :
  header req (authKey cfg) = Some h ->
  JsString.includes h "Bearer " ->
  exists t,
    outcome g req cfg = Normal (VString t) /\
    secondField h t /\
    JsString.mem " " t = false /\
    forall r, h = "Bearer " ++ r ->
      (exists rest, r = t ++ rest /\ (rest = "" \/ exists r', rest = String " " r')) /\
      (JsString.mem " " r = true -> t <> r).
Proof.
  intros Hh Hb.
  destruct (header_branch_field g req cfg h Hh Hb) as (t & Ht & Hout).
  exists t. split; [exact Hout|]. split; [exact Ht|].
  split; [now destruct Ht as (? & ? & _ & _ & ? & _)|].
  intros r ->.
  destruct (first_field_exists " " r) as (u & rest & Hr & Hu & Hrest).
  assert (secondField ("Bearer " ++ r) u) as Hu'.
  { exists "Bearer", rest. rewrite Hr. auto. }
  rewrite (secondField_unique _ _ _ Ht Hu').
  split; [exists rest; auto|].
  intros Hsp ->. congruence.
Qed.

Lemma header_token_is_second_field_witness :
  header (headersOnly {[ "Authorization" := "Bearer abc123 extra" ]}) (authKey None)
    = Some "Bearer abc123 extra" /\
  JsString.includes "Bearer abc123 extra" "Bearer " /\
  outcome node (headersOnly {[ "Authorization" := "Bearer abc123 extra" ]}) None
    = Normal (VString "abc123") /\
  exists t,
    outcome node (headersOnly {[ "Authorization" := "Bearer abc123 extra" ]}) None
      = Normal (VString t) /\
    secondField "Bearer abc123 extra" t /\
    JsString.mem " " t = false /\
    forall r, "Bearer abc123 extra" = "Bearer " ++ r ->
      (exists rest, r = t ++ rest /\ (rest = "" \/ exists r', rest = String " " r')) /\
      (JsString.mem " " r = true -> t <> r).
Proof.
  assert (header (headersOnly {[ "Authorization" := "Bearer abc123 extra" ]})
            (authKey None) = Some "Bearer abc123 extra") as Hh by reflexivity.
  assert (JsString.includes "Bearer abc123 extra" "Bearer ") as Hb
    by (exists "", "abc123 extra"; reflexivity).
  split; [exact Hh|]. split; [exact Hb|]. split; [reflexivity|].
  exact (header_token_is_second_field node _ None "Bearer abc123 extra" Hh Hb).
Defined.

(** A field that comes before ["Bearer "] does not depend on what comes
    after it. *)
Lemma field_before_scheme (p : string) :
  JsString.mem " " p = true ->
  exists t, forall r, secondField (p ++ "Bearer " ++ r) t.
Proof.
  intros Hp.
  destruct (first_field_exists " " p) as (a & rest & -> & Ha & [->|[m ->]]).
  { rewrite append_nil_r in Hp. congruence. }
  destruct (first_field_exists " " (m ++ "Bearer")) as (t & rest & Hm & Ht & Hrest).
  exists t. intros r. exists a, (rest ++ " " ++ r).
  split; [|split; [exact Ha|split; [exact Ht|]]].
  - rewrite <- (append_assoc t), <- Hm, !append_assoc. reflexivity.
  - right. destruct Hrest as [->|[r' ->]]; eauto.
Qed.

(** C9, as the code has it. When ["Bearer "] occurs in the authorization
    header, at its start or not, the call takes the header branch and
    returns the second field of the whole header between spaces.  When a
    space comes before that ["Bearer "], the result is the same whatever
    follows ["Bearer "]; when none does, the result is what follows
    ["Bearer "] up to the next space. *)
Theorem bearer_not_at_start (g : Globals) (req : option requestObject)
    (cfg : option config) (p r : string) :
  header req (authKey cfg) = Some (p ++ "Bearer " ++ r) ->
  exists t,
    secondField (p ++ "Bearer " ++ r) t /\
    outcome g req cfg = Normal (VString t) /\
    (JsString.mem " " p = true ->
     forall g' req' r',
       header req' (authKey cfg) = Some (p ++ "Bearer " ++ r') ->
       outcome g' req' cfg = Normal (VString t)) /\
    (JsString.mem " " p = false ->
     exists rest, r = t ++ rest /\ (rest = "" \/ exists r', rest = String " " r')).
Proof.
  intros Hh.
  assert (forall x, JsString.includes (p ++ "Bearer " ++ x) "Bearer ") as Hb
    by (intros x; now exists p, x).
  destruct (header_branch_field g req cfg _ Hh (Hb r)) as (t & Ht & Hout).
  exists t. split; [exact Ht|]. split; [exact Hout|]. split.
  - intros Hp g' req' r' Hh'.
    destruct (field_before_scheme p Hp) as [u Hu].
    rewrite (secondField_unique _ _ _ Ht (Hu r)).
    now rewrite (header_branch g' req' cfg _ Hh' (Hb r')),
      (secondField_element _ _ (Hu r')).
  - intros Hp.
    destruct (first_field_exists " " r) as (u & rest & Hr & Hu & Hrest).
    assert (secondField (p ++ "Bearer " ++ r) u) as Hu'.
    { exists (p ++ "Bearer"), rest. rewrite Hr, append_assoc.
      split; [reflexivity|]. rewrite mem_app, Hp. auto. }
    rewrite (secondField_unique _ _ _ Ht Hu'). eauto.
Qed.

Lemma bearer_not_at_start_witness :
  header (headersOnly {[ "Authorization" := "Basic x Bearer y" ]}) (authKey None)
    = Some ("Basic x " ++ "Bearer " ++ "y") /\
  outcome node (headersOnly {[ "Authorization" := "Basic x Bearer y" ]}) None
    = Normal (VString "x") /\
  exists t,
    secondField ("Basic x " ++ "Bearer " ++ "y") t /\
    outcome node (headersOnly {[ "Authorization" := "Basic x Bearer y" ]}) None
      = Normal (VString t) /\
    (JsString.mem " " "Basic x " = true ->
     forall g' req' r',
       header req' (authKey None) = Some ("Basic x " ++ "Bearer " ++ r') ->
       outcome g' req' None = Normal (VString t)) /\
    (JsString.mem " " "Basic x " = false ->
     exists rest, "y" = t ++ rest /\ (rest = "" \/ exists r', rest = String " " r')).
Proof.
  assert (header (headersOnly {[ "Authorization" := "Basic x Bearer y" ]})
            (authKey None) = Some ("Basic x " ++ "Bearer " ++ "y")) as Hh
    by reflexivity.
  split; [exact Hh|]. split; [reflexivity|].
  exact (bearer_not_at_start node _ None "Basic x " "y" Hh).
Defined.

(** C9, as it is stated, fails on ["xBearer y"]: ["Bearer "] occurs there
    and not at the start, and the call returns ["y"], which is the second
    field of the whole header and also the text that follows
    ["Bearer "]. *)
Lemma bearer_after_letter_returns_following :
  String.prefix "Bearer " "xBearer y" = false /\
  "xBearer y" = "x" ++ "Bearer " ++ "y" /\
  outcome node (headersOnly {[ "Authorization" := "xBearer y" ]}) None
    = Normal (VString "y").
Proof. repeat split. Qed.

(** C10, as the code has it. When ["Bearer "] is at once followed by a
    second space and no space comes before it, as in a header that starts
    with it, the call returns the empty string, whatever the body, the
    query and the cookie header hold. *)
Theorem doubled_space_gives_empty_token (g : Globals) (req : option requestObject)
    (cfg : option config) (p r : string) :
  JsString.mem " " p = false ->
  header req (authKey cfg) = Some (p ++ "Bearer " ++ " " ++ r) ->
  outcome g req cfg = Normal (VString "").
Proof.
  intros Hp Hh.
  assert (JsString.includes (p ++ "Bearer " ++ " " ++ r) "Bearer ") as Hb
    by (now exists p, (" " ++ r)).
  rewrite (header_branch g req cfg _ Hh Hb). f_equal.
  apply secondField_element.
  exists (p ++ "Bearer"), (String " " r).
  split; [|split; [|split; [reflexivity|eauto]]].
  - now rewrite append_assoc.
  - rewrite mem_app, Hp. reflexivity.
Qed.

Lemma doubled_space_gives_empty_token_witness :
  JsString.mem " " "" = false /\
  header allSourcesDoubled (authKey None) = Some ("" ++ "Bearer " ++ " " ++ "tok") /\
  outcome node allSourcesDoubled None = Normal (VString "").
Proof.
  assert (header allSourcesDoubled (authKey None)
            = Some ("" ++ "Bearer " ++ " " ++ "tok")) as Hh by reflexivity.
  split; [reflexivity|]. split; [exact Hh|].
  exact (doubled_space_gives_empty_token node allSourcesDoubled None "" "tok"
           eq_refl Hh).
Defined.

(** C10, as it is stated, fails on ["x Bearer  tok"]: there ["Bearer "] is
    at once followed by a second space, and the call returns ["Bearer"],
    the field between the first space and the second. *)
Lemma doubled_space_after_later_bearer :
  (exists p r, "x Bearer  tok" = p ++ "Bearer " ++ " " ++ r) /\
  outcome node (headersOnly {[ "Authorization" := "x Bearer  tok" ]}) None
    = Normal (VString "Bearer") /\
  outcome node (headersOnly {[ "Authorization" := "x Bearer  tok" ]}) None
    <> Normal (VString "").
Proof.
  split; [exists "x ", "tok"; reflexivity|].
  split; [reflexivity | discriminate].
Qed.

(** ** The claims on the other branches *)

(** C5. When the authorization header is missing or holds no ["Bearer "],
    even if it holds another scheme, and [body.access_token] is a string
    that is not empty, the call returns it, whatever the query holds.
    The key of the authorization header is no member of
    [Object.prototype], so that a header that is no own property is
    missing. *)
Theorem body_token_before_query (g : Globals) (req : option requestObject)
    (cfg : option config) (b : string) :
  inherited (authKey cfg) = false ->
  (forall h, header req (authKey cfg) = Some h -> ~ JsString.includes h "Bearer ") ->
  bodyToken req = Some b ->
  b <> "" ->
  outcome g req cfg = Normal (VString b).
Proof.
  intros _ Hh Hb Hne. rewrite outcome_chain, Hb. unfold chain.
  rewrite (bearer_excludes _ Hh). simpl.
  apply String.eqb_neq in Hne. now rewrite Hne.
Qed.

Lemma body_token_before_query_witness :
  inherited (authKey None) = false /\
  (forall h, header basicWithTokens (authKey None) = Some h ->
             ~ JsString.includes h "Bearer ") /\
  bodyToken basicWithTokens = Some "tok1" /\
  "tok1" <> "" /\
  queryToken basicWithTokens = Some "tok2" /\
  outcome node basicWithTokens None = Normal (VString "tok1").
Proof.
  assert (forall h, header basicWithTokens (authKey None) = Some h ->
                    ~ JsString.includes h "Bearer ") as Hh.
  { intros h [= <-] Hb%indexOf_includes. discriminate Hb. }
  assert ("tok1" <> "") as Hne by discriminate.
  split; [reflexivity|]. split; [exact Hh|]. split; [reflexivity|].
  split; [exact Hne|]. split; [reflexivity|].
  exact (body_token_before_query node basicWithTokens None "tok1"
           eq_refl Hh eq_refl Hne).
Defined.

(** What the call does once the tests on the authorization header, the
    body and the query have failed and the cookie header is a string that
    is not empty. *)
Lemma cookie_branch (g : Globals) (req : option requestObject)
    (cfg : option config) (c : string) :
  bearer (header req (authKey cfg)) = false ->
  truthy (valueOf (bodyToken req)) = false ->
  truthy (valueOf (queryToken req)) = false ->
  header req (cookieKey cfg) = Some c ->
  c <> "" ->
  outcome g req cfg =
    match cookie g with
    | None => Throw (ReferenceError "cookie")
    | Some m =>
        let fromCookie := lookupProp (parse m c) ACCESS_TOKEN_PARAMETER in
        Normal (if truthy fromCookie then fromCookie else VUndefined)
    end.
Proof.
  intros Ha Hb Hq Hc Hne. rewrite outcome_chain, Hc. unfold chain.
  rewrite Ha, Hb, Hq. simpl.
  apply String.eqb_neq in Hne. now rewrite Hne.
Qed.

(** What the call does once the four tests have failed. *)
Lemma no_source (g : Globals) (req : option requestObject) (cfg : option config) :
  bearer (header req (authKey cfg)) = false ->
  truthy (valueOf (bodyToken req)) = false ->
  truthy (valueOf (queryToken req)) = false ->
  truthy (valueOf (header req (cookieKey cfg))) = false ->
  outcome g req cfg = Normal VNull.
Proof.
  intros Ha Hb Hq Hc. rewrite outcome_chain. unfold chain.
  now rewrite Ha, Hb, Hq, Hc.
Qed.

Lemma noToken_falsy (o : option string) :
  noToken o -> truthy (valueOf o) = false.
Proof. now intros [->| ->]. Qed.

Lemma falsy_noToken (o : option string) :
  truthy (valueOf o) = false -> noToken o.
Proof.
  destruct o as [x|]; [|now left]. cbn. intros H%negb_false_iff.
  apply String.eqb_eq in H as ->. now right.
Qed.

Lemma bearer_false (o : option string) (h : string) :
  bearer o = false -> o = Some h -> ~ JsString.includes h "Bearer ".
Proof.
  intros Hb -> Hi%bearer_includes. congruence.
Qed.

Lemma truthy_not_empty (x : string) :
  truthy (VString x) = true -> x <> "".
Proof. cbn. intros H%negb_true_iff. now apply String.eqb_neq. Qed.



(** C2. On the request whose only header is
    [Cookie: access_token=tok3; other=x], with an empty body and an empty
    query, the call throws in Node.js; bound to a module [m], [cookie]
    would make it return the [access_token] of the mapping that [m]
    parses the header to. *)
Theorem cookie_token_example :
  outcome node (headersOnly {[ "Cookie" := "access_token=tok3; other=x" ]}) None
    = Throw (ReferenceError "cookie") /\
  forall m : CookieModule,
    outcome {| cookie := Some m |}
      (headersOnly {[ "Cookie" := "access_token=tok3; other=x" ]}) None
    = Normal (match parse m "access_token=tok3; other=x" !! "access_token" with
              | Some t => if String.eqb t "" then VUndefined else VString t
              | None => VUndefined
              end).
Proof.
  split; [reflexivity|].
  intros m.
  rewrite (cookie_branch _ _ None "access_token=tok3; other=x");
    [|reflexivity..|discriminate].
  unfold lookupProp, ACCESS_TOKEN_PARAMETER. cbn.
  destruct (parse m _ !! "access_token") as [t|]; [|reflexivity].
  cbn. now destruct (String.eqb t "").
Qed.

(** C6. On the request whose only header is [Cookie: other=x], with an
    empty body and an empty query, no source gives a token; the call
    throws in Node.js and, whatever [cookie] is bound to, does not return
    [null]: with [cookie] bound to a module it returns [undefined] when
    the parsed mapping has no [access_token] or an empty one. *)
Theorem cookie_without_token_example :
  outcome node (headersOnly {[ "Cookie" := "other=x" ]}) None
    = Throw (ReferenceError "cookie") /\
  (forall m : CookieModule,
     outcome {| cookie := Some m |} (headersOnly {[ "Cookie" := "other=x" ]}) None
     = Normal (match parse m "other=x" !! "access_token" with
               | Some t => if String.eqb t "" then VUndefined else VString t
               | None => VUndefined
               end)) /\
  forall g : Globals,
    outcome g (headersOnly {[ "Cookie" := "other=x" ]}) None <> Normal VNull.
Proof.
  assert (forall m : CookieModule,
     outcome {| cookie := Some m |} (headersOnly {[ "Cookie" := "other=x" ]}) None
     = Normal (match parse m "other=x" !! "access_token" with
               | Some t => if String.eqb t "" then VUndefined else VString t
               | None => VUndefined
               end)) as Hm.
  { intros m.
    rewrite (cookie_branch _ _ None "other=x"); [|reflexivity..|discriminate].
    unfold lookupProp, ACCESS_TOKEN_PARAMETER. cbn.
    destruct (parse m _ !! "access_token") as [t|]; [|reflexivity].
    cbn. now destruct (String.eqb t ""). }
  split; [reflexivity|]. split; [exact Hm|].
  intros [[m|]]; [|discriminate].
  rewrite Hm. destruct (parse m _ !! _) as [t|]; [|discriminate].
  destruct (String.eqb t ""); discriminate.
Qed.

(** ** The keys of the configuration *)

Lemma standardHeaders_authorization (a c : option string) :
  standardHeaders a c !! AUTHORIZATION_HEADER = a.
Proof.
  unfold standardHeaders. destruct c as [y|].
  - rewrite lookup_insert_ne by discriminate.
    destruct a; [apply lookup_singleton_eq | apply lookup_empty].
  - destruct a; [apply lookup_singleton_eq | apply lookup_empty].
Qed.

Lemma standardHeaders_cookie (a c : option string) :
  standardHeaders a c !! COOKIE_HEADER = c.
Proof.
  unfold standardHeaders. destruct c as [y|].
  - apply lookup_insert_eq.
  - destruct a; [apply lookup_singleton_ne; discriminate | apply lookup_empty].
Qed.

(** C7. The authorization header is read under the key that the
    configuration gives and the rule of ["Bearer "] is applied to it; the
    cookie header is read under the key that the configuration gives; a
    header under another key is not read; a missing configuration or key
    stands for [Authorization] and [Cookie].  With keys that are no
    members of [Object.prototype] the call ends as the call without
    configuration does on the request that holds, under [Authorization]
    and [Cookie], what the given request holds under the two keys. *)
Theorem configured_header_keys (g : Globals) (req : option requestObject) :
  (forall (ak : string) (ck : option string) (h : string),
     header req ak = Some h ->
     JsString.includes h "Bearer " ->
     exists t,
       secondField h t /\
       outcome g req (Some {| authorizationHeaderKey := Some ak;
                              cookieHeaderKey := ck |})
       = Normal (VString t)) /\
  (forall (ak ck c : string),
     inherited ak = false ->
     (forall h, header req ak = Some h -> ~ JsString.includes h "Bearer ") ->
     noToken (bodyToken req) ->
     noToken (queryToken req) ->
     header req ck = Some c ->
     c <> "" ->
     outcome g req (Some {| authorizationHeaderKey := Some ak;
                            cookieHeaderKey := Some ck |})
     = match cookie g with
       | None => Throw (ReferenceError "cookie")
       | Some m =>
           Normal (match parse m c !! "access_token" with
                   | Some t => if String.eqb t "" then VUndefined else VString t
                   | None => VUndefined
                   end)
       end) /\
  (forall (ak ck k v : string) (q b : option (gmap string string))
          (h : gmap string string),
     req = Some {| query := q; headers := Some h; body := b |} ->
     k <> ak ->
     k <> ck ->
     outcome g (Some {| query := q; headers := Some (<[k := v]> h); body := b |})
       (Some {| authorizationHeaderKey := Some ak; cookieHeaderKey := Some ck |})
     = outcome g req
         (Some {| authorizationHeaderKey := Some ak; cookieHeaderKey := Some ck |})) /\
  (forall ak ck : string,
     inherited ak = false ->
     inherited ck = false ->
     outcome g req (Some {| authorizationHeaderKey := Some ak;
                            cookieHeaderKey := Some ck |})
     = outcome g (relabel req ak ck) None) /\
  outcome g req None
    = outcome g req (Some {| authorizationHeaderKey := Some "Authorization";
                             cookieHeaderKey := Some "Cookie" |}) /\
  (forall ck : option string,
     outcome g req (Some {| authorizationHeaderKey := None; cookieHeaderKey := ck |})
     = outcome g req (Some {| authorizationHeaderKey := Some "Authorization";
                              cookieHeaderKey := ck |})) /\
  (forall ak : option string,
     outcome g req (Some {| authorizationHeaderKey := ak; cookieHeaderKey := None |})
     = outcome g req (Some {| authorizationHeaderKey := ak;
                              cookieHeaderKey := Some "Cookie" |})).
Proof.
  split; [|split; [|split; [|split; [|split; [|split]]]]].
  - intros ak ck h Hh Hb.
    exact (header_branch_field g req
             (Some {| authorizationHeaderKey := Some ak; cookieHeaderKey := ck |})
             h Hh Hb).
  - intros ak ck c _ Ha Hb Hq Hc Hne.
    rewrite (cookie_branch g req
               (Some {| authorizationHeaderKey := Some ak;
                        cookieHeaderKey := Some ck |}) c
               (bearer_excludes _ Ha) (noToken_falsy _ Hb) (noToken_falsy _ Hq)
               Hc Hne).
    destruct (cookie g) as [m|]; [|reflexivity].
    unfold lookupProp, ACCESS_TOKEN_PARAMETER. cbn.
    destruct (parse m c !! "access_token") as [t|]; [|reflexivity].
    cbn. now destruct (String.eqb t "").
  - intros ak ck k v q b h -> Hak Hck. rewrite !outcome_chain.
    unfold authKey, cookieKey. cbn. now rewrite !lookup_insert_ne.
  - intros ak ck _ _. rewrite !outcome_chain. unfold relabel, authKey, cookieKey.
    cbn [header prop headers mbind option_bind default configuration
         authorizationHeaderKey cookieHeaderKey].
    rewrite standardHeaders_authorization, standardHeaders_cookie.
    now destruct req as [[q h b]|].
  - now rewrite !outcome_chain.
  - intros ck. now rewrite !outcome_chain.
  - intros ak. now rewrite !outcome_chain.
Qed.

Lemma configured_header_keys_witness :
  outcome node customKeyRequest
    (Some {| authorizationHeaderKey := Some "X-Auth"; cookieHeaderKey := None |})
  = Normal (VString "abc123").
Proof.
  destruct (configured_header_keys node customKeyRequest) as [Hread _].
  destruct (Hread "X-Auth" None "Bearer abc123" eq_refl) as (t & Ht & Hout).
  { exists "", "abc123". reflexivity. }
  assert (secondField "Bearer abc123" "abc123") as Hf.
  { exists "Bearer", "". repeat split. now left. }
  now rewrite Hout, (secondField_unique _ _ _ Ht Hf).
Defined.

(** The example of a configured key: the header is read under [X-Auth],
    and a header under [Authorization] is not. *)
Example configured_key_example :
  outcome node
    (headersOnly {[ "X-Auth" := "Bearer abc123"; "Authorization" := "Bearer other" ]})
    (Some {| authorizationHeaderKey := Some "X-Auth"; cookieHeaderKey := None |})
  = Normal (VString "abc123").
Proof. reflexivity. Qed.

(** ** Purity *)

(** C8. A call leaves the request and the configuration as it found them,
    and a second call on what the first one left ends as the first one
    did. *)
Theorem extraction_is_pure (g : Globals) (req : option requestObject)
    (cfg : option config) :
  fst (call g req cfg) = {| requestView := req; configuration := cfg |} /\
  extractTokenFromRequest g (fst (call g req cfg)) = call g req cfg.
Proof.
  rewrite call_chain. split; [reflexivity|]. apply call_chain.
Qed.

(** ** Further facts *)

(** X1. When the four tests fail, the cookie header being missing or
    empty, the call returns [null].  The two keys are no members of
    [Object.prototype], so that a header that is no own property is
    missing. *)
Theorem all_tests_fail_gives_null (g : Globals) (req : option requestObject)
    (cfg : option config) :
  inherited (authKey cfg) = false ->
  inherited (cookieKey cfg) = false ->
  (forall h, header req (authKey cfg) = Some h -> ~ JsString.includes h "Bearer ") ->
  noToken (bodyToken req) ->
  noToken (queryToken req) ->
  noToken (header req (cookieKey cfg)) ->
  outcome g req cfg = Normal VNull.
Proof.
  intros _ _ Ha Hb Hq Hc.
  apply no_source; auto using bearer_excludes, noToken_falsy.
Qed.

Lemma all_tests_fail_gives_null_witness :
  outcome node None None = Normal VNull /\
  outcome node basicWithEmptyTokens None = Normal VNull.
Proof.
  split.
  - apply (all_tests_fail_gives_null node None None);
      [reflexivity | reflexivity | discriminate | now left..].
  - apply (all_tests_fail_gives_null node basicWithEmptyTokens None);
      [reflexivity | reflexivity | | now right..].
    intros h [= <-] Hb%indexOf_includes. discriminate Hb.
Defined.

(** X2. With [cookie] bound to a module and the key of the authorization
    header no member of [Object.prototype], once the tests on the
    authorization header, the body and the query have failed and the cookie header is a
    string that is not empty, the call returns the [access_token] of the
    mapping the module parses the header to when that is a string that is
    not empty, and [undefined] otherwise. *)
Theorem cookie_branch_with_module (m : CookieModule) (req : option requestObject)
    (cfg : option config) (c : string) :
  inherited (authKey cfg) = false ->
  (forall h, header req (authKey cfg) = Some h -> ~ JsString.includes h "Bearer ") ->
  noToken (bodyToken req) ->
  noToken (queryToken req) ->
  header req (cookieKey cfg) = Some c ->
  c <> "" ->
  outcome {| cookie := Some m |} req cfg =
    Normal (match parse m c !! "access_token" with
            | Some t => if String.eqb t "" then VUndefined else VString t
            | None => VUndefined
            end).
Proof.
  intros _ Ha Hb Hq Hc Hne.
  rewrite (cookie_branch _ req cfg c (bearer_excludes _ Ha)
             (noToken_falsy _ Hb) (noToken_falsy _ Hq) Hc Hne).
  unfold lookupProp, ACCESS_TOKEN_PARAMETER. cbn.
  destruct (parse m c !! "access_token") as [t|]; [|reflexivity].
  cbn. now destruct (String.eqb t "").
Qed.

Lemma cookie_branch_with_module_witness :
  outcome {| cookie := Some {| parse := fun _ => {[ "access_token" := "tok3";
                                                    "other" := "x" ]} |} |}
    (headersOnly {[ "Cookie" := "access_token=tok3; other=x" ]}) None
  = Normal (VString "tok3").
Proof.
  etransitivity.
  - apply (cookie_branch_with_module
             {| parse := fun _ => {[ "access_token" := "tok3"; "other" := "x" ]} |}
             (headersOnly {[ "Cookie" := "access_token=tok3; other=x" ]}) None
             "access_token=tok3; other=x");
      [reflexivity | discriminate | now left | now left | reflexivity
      | discriminate].
  - reflexivity.
Defined.

(** X4. In Node.js, for keys that are no members of [Object.prototype],
    the call throws exactly when it reaches the cookie branch, and what it
    throws is [ReferenceError] for [cookie]: the authorization header is
    missing or holds no ["Bearer "], neither the body nor the query gives
    a token, and the cookie header is a string that is not empty. *)
Theorem node_throws_only_for_cookie (req : option requestObject)
    (cfg : option config) (e : error) :
  inherited (authKey cfg) = false ->
  inherited (cookieKey cfg) = false ->
  outcome node req cfg = Throw e <->
  e = ReferenceError "cookie" /\
  (forall h, header req (authKey cfg) = Some h -> ~ JsString.includes h "Bearer ") /\
  (exists c, header req (cookieKey cfg) = Some c /\ c <> "") /\
  noToken (bodyToken req) /\
  noToken (queryToken req).
Proof.
  intros _ _. split.
  - rewrite outcome_chain. unfold chain. cbn [cookie node].
    destruct (bearer _) eqn:Ha; [discriminate|].
    destruct (truthy (valueOf (bodyToken req))) eqn:Hb; [discriminate|].
    destruct (truthy (valueOf (queryToken req))) eqn:Hq; [discriminate|].
    destruct (header req (cookieKey cfg)) as [c|]; [|discriminate].
    destruct (truthy (valueOf (Some c))) eqn:Hc; [|discriminate].
    intros [= <-]. split; [reflexivity|].
    split; [intros h; now apply bearer_false|].
    split; [exists c; auto using truthy_not_empty|].
    auto using falsy_noToken.
  - intros (-> & Ha & (c & Hc & Hne) & Hb & Hq).
    now rewrite (cookie_branch node req cfg c (bearer_excludes _ Ha)
                   (noToken_falsy _ Hb) (noToken_falsy _ Hq) Hc Hne).
Qed.

Lemma node_throws_only_for_cookie_witness :
  outcome node (headersOnly {[ "Cookie" := "a=b" ]}) None
    = Throw (ReferenceError "cookie") <->
  ReferenceError "cookie" = ReferenceError "cookie" /\
  (forall h, header (headersOnly {[ "Cookie" := "a=b" ]}) (authKey None) = Some h ->
             ~ JsString.includes h "Bearer ") /\
  (exists c, header (headersOnly {[ "Cookie" := "a=b" ]}) (cookieKey None) = Some c /\
             c <> "") /\
  noToken (bodyToken (headersOnly {[ "Cookie" := "a=b" ]})) /\
  noToken (queryToken (headersOnly {[ "Cookie" := "a=b" ]})).
Proof.
  exact (node_throws_only_for_cookie (headersOnly {[ "Cookie" := "a=b" ]}) None
           (ReferenceError "cookie") eq_refl eq_refl).
Defined.

(** ** More on the function *)

(** The chain of tests does not tell an empty string from a missing
    value. *)
Lemma chain_dropEmpty (g : Globals) (a c q b : option string) :
  chain g a c q b = chain g (dropEmpty a) (dropEmpty c) (dropEmpty q) (dropEmpty b).
Proof.
  destruct a as [[|? ?]|], c as [[|? ?]|], q as [[|? ?]|], b as [[|? ?]|];
    reflexivity.
Qed.

(** Two requests that agree on the four reads, an empty string counted as
    missing, end the same way. *)
Lemma outcome_ext (g : Globals) (req req' : option requestObject)
    (cfg : option config) :
  dropEmpty (header req (authKey cfg)) = dropEmpty (header req' (authKey cfg)) ->
  dropEmpty (header req (cookieKey cfg)) = dropEmpty (header req' (cookieKey cfg)) ->
  dropEmpty (queryToken req) = dropEmpty (queryToken req') ->
  dropEmpty (bodyToken req) = dropEmpty (bodyToken req') ->
  outcome g req cfg = outcome g req' cfg.
Proof.
  intros Ha Hc Hq Hb. rewrite !outcome_chain.
  rewrite chain_dropEmpty, Ha, Hc, Hq, Hb. symmetry. apply chain_dropEmpty.
Qed.

(** X5. When the key of the authorization header is no member of
    [Object.prototype], the header is missing or holds no ["Bearer "]
    and the body gives no token, a [query.access_token] that is not empty
    is returned, whatever the cookie header holds and whatever [cookie]
    is bound to: the cookie header is not parsed. *)
Theorem query_token_before_cookie (g : Globals) (req : option requestObject)
    (cfg : option config) (q : string) :
  inherited (authKey cfg) = false ->
  (forall h, header req (authKey cfg) = Some h -> ~ JsString.includes h "Bearer ") ->
  noToken (bodyToken req) ->
  queryToken req = Some q ->
  q <> "" ->
  outcome g req cfg = Normal (VString q).
Proof.
  intros _ Ha Hb Hq Hne. rewrite outcome_chain, Hq. unfold chain.
  rewrite (bearer_excludes _ Ha), (noToken_falsy _ Hb). cbn.
  apply String.eqb_neq in Hne. now rewrite Hne.
Qed.

Lemma query_token_before_cookie_witness :
  header queryAndCookie (cookieKey None) = Some "access_token=tok3" /\
  outcome node queryAndCookie None = Normal (VString "tok2").
Proof.
  split; [reflexivity|].
  apply (query_token_before_cookie node queryAndCookie None "tok2");
    [reflexivity | discriminate | now left | reflexivity | discriminate].
Defined.

(** X6. For an authorization header that is ["Bearer "] followed by [t],
    the call returns [t] exactly when [t] has no space. *)
Theorem bearer_header_round_trip (g : Globals) (req : option requestObject)
    (cfg : option config) (t : string) :
  header req (authKey cfg) = Some ("Bearer " ++ t) ->
  outcome g req cfg = Normal (VString t) <-> JsString.mem " " t = false.
Proof.
  intros Hh.
  assert (JsString.includes ("Bearer " ++ t) "Bearer ") as Hb by (now exists "", t).
  destruct (first_field_exists " " t) as (u & rest & Ht & Hu & Hrest).
  assert (secondField ("Bearer " ++ t) u) as Hf.
  { exists "Bearer", rest. rewrite Ht. auto. }
  rewrite (header_branch g req cfg _ Hh Hb), (secondField_element _ _ Hf).
  split.
  - intros [= ->]. exact Hu.
  - intros Hm. f_equal. f_equal. destruct Hrest as [->|[r ->]].
    + now rewrite append_nil_r in Ht.
    + rewrite Ht, mem_app in Hm. apply orb_false_iff in Hm as [_ Hm].
      cbn in Hm. discriminate Hm.
Qed.

Lemma bearer_header_round_trip_witness :
  outcome node (headersOnly {[ "Authorization" := "Bearer abc123" ]}) None
    = Normal (VString "abc123") <-> JsString.mem " " "abc123" = false.
Proof.
  exact (bearer_header_round_trip node
           (headersOnly {[ "Authorization" := "Bearer abc123" ]}) None "abc123"
           eq_refl).
Defined.

(** X7. With keys that are no members of [Object.prototype], the call
    depends on the request through four reads only, the two headers
    under the keys of the configuration, [body.access_token] and
    [query.access_token], and it does not tell an empty string from a
    missing value: two requests that agree on them end the same way. *)
Theorem outcome_depends_on_four_reads (g : Globals) (req req' : option requestObject)
    (cfg : option config) :
  inherited (authKey cfg) = false ->
  inherited (cookieKey cfg) = false ->
  dropEmpty (header req (authKey cfg)) = dropEmpty (header req' (authKey cfg)) ->
  dropEmpty (header req (cookieKey cfg)) = dropEmpty (header req' (cookieKey cfg)) ->
  dropEmpty (queryToken req) = dropEmpty (queryToken req') ->
  dropEmpty (bodyToken req) = dropEmpty (bodyToken req') ->
  outcome g req cfg = outcome g req' cfg.
Proof.
  intros _ _. exact (outcome_ext g req req' cfg).
Qed.

Lemma outcome_depends_on_four_reads_witness :
  outcome node
    (Some {| query := Some {[ "access_token" := "" ]};
             headers := Some {[ "Authorization" := ""; "Accept" := "text/html" ]};
             body := Some {[ "access_token" := "tok1"; "user" := "u" ]} |}) None
  = outcome node
      (Some {| query := None; headers := None;
               body := Some {[ "access_token" := "tok1" ]} |}) None.
Proof.
  apply (outcome_depends_on_four_reads node
           (Some {| query := Some {[ "access_token" := "" ]};
                    headers := Some {[ "Authorization" := "";
                                       "Accept" := "text/html" ]};
                    body := Some {[ "access_token" := "tok1"; "user" := "u" ]} |})
           (Some {| query := None; headers := None;
                    body := Some {[ "access_token" := "tok1" ]} |}) None);
    reflexivity.
Defined.

(** X8. With keys that are no members of [Object.prototype], a request
    without [query], [headers] or [body], and no request at all, is
    treated as one with empty objects in their places. *)
Theorem missing_objects_as_empty (g : Globals) (req : option requestObject)
    (cfg : option config) :
  inherited (authKey cfg) = false ->
  inherited (cookieKey cfg) = false ->
  outcome g req cfg = outcome g (withEmptyObjects req) cfg.
Proof.
  intros _ _. apply outcome_ext; f_equal;
    destruct req as [[[q|] [h|] [b|]]|]; cbn; now rewrite ?lookup_empty.
Qed.

Lemma missing_objects_as_empty_witness :
  outcome node (Some {| query := None; headers := None;
                        body := Some {[ "access_token" := "tok1" ]} |}) None
  = outcome node
      (withEmptyObjects (Some {| query := None; headers := None;
                                 body := Some {[ "access_token" := "tok1" ]} |}))
      None.
Proof.
  exact (missing_objects_as_empty node
           (Some {| query := None; headers := None;
                    body := Some {[ "access_token" := "tok1" ]} |}) None
           eq_refl eq_refl).
Defined.

(** X9. A property of [query] or [body] other than [access_token], and a
    header under a key that is not one of the two keys of the
    configuration, changes nothing: with the default configuration a
    header under [authorization], in lower case, is not read. *)
Theorem other_properties_ignored (g : Globals) (q h b : gmap string string)
    (cfg : option config) (kq kh kb vq vh vb : string) :
  kq <> "access_token" ->
  kb <> "access_token" ->
  kh <> authKey cfg ->
  kh <> cookieKey cfg ->
  outcome g (Some {| query := Some (<[kq := vq]> q);
                     headers := Some (<[kh := vh]> h);
                     body := Some (<[kb := vb]> b) |}) cfg
  = outcome g (Some {| query := Some q; headers := Some h; body := Some b |}) cfg.
Proof.
  intros Hq Hb Ha Hc.
  apply outcome_ext; f_equal; cbn; now rewrite lookup_insert_ne.
Qed.

Lemma other_properties_ignored_witness :
  outcome node
    (Some {| query := Some (<[ "page" := "2" ]> ∅);
             headers := Some (<[ "authorization" := "Bearer abc123" ]> ∅);
             body := Some (<[ "user" := "u" ]> ∅) |}) None
  = outcome node (Some {| query := Some ∅; headers := Some ∅; body := Some ∅ |}) None.
Proof.
  apply (other_properties_ignored node ∅ ∅ ∅ None "page" "authorization" "user"
           "2" "Bearer abc123" "u"); discriminate.
Defined.

(** X10. The call returns [null] only when the four tests have failed:
    the authorization header is missing or holds no ["Bearer "], and the
    body, the query and the cookie header each give nothing. *)
Theorem null_only_when_nothing_present (g : Globals) (req : option requestObject)
    (cfg : option config) :
  outcome g req cfg = Normal VNull ->
  (forall h, header req (authKey cfg) = Some h -> ~ JsString.includes h "Bearer ") /\
  noToken (bodyToken req) /\
  noToken (queryToken req) /\
  noToken (header req (cookieKey cfg)).
Proof.
  rewrite outcome_chain. unfold chain, element, lookupProp.
  destruct (bearer _) eqn:Ha.
  { destruct (_ !! 1%nat); discriminate. }
  destruct (truthy (valueOf (bodyToken req))) eqn:Hb.
  { destruct (bodyToken req); discriminate. }
  destruct (truthy (valueOf (queryToken req))) eqn:Hq.
  { destruct (queryToken req); discriminate. }
  destruct (truthy (valueOf (header req (cookieKey cfg)))) eqn:Hc.
  { destruct (cookie g) as [m|]; [|discriminate].
    cbn zeta. destruct (parse m _ !! _) as [x|]; [|discriminate].
    destruct (truthy (VString x)); discriminate. }
  intros _. split; [intros h; now apply bearer_false|].
  auto using falsy_noToken.
Qed.

Lemma null_only_when_nothing_present_witness :
  (forall h, header (headersOnly {[ "Authorization" := "Basic dXNlcjpwdw==" ]})
               (authKey None) = Some h -> ~ JsString.includes h "Bearer ") /\
  noToken (bodyToken (headersOnly {[ "Authorization" := "Basic dXNlcjpwdw==" ]})) /\
  noToken (queryToken (headersOnly {[ "Authorization" := "Basic dXNlcjpwdw==" ]})) /\
  noToken (header (headersOnly {[ "Authorization" := "Basic dXNlcjpwdw==" ]})
             (cookieKey None)).
Proof.
  exact (null_only_when_nothing_present node
           (headersOnly {[ "Authorization" := "Basic dXNlcjpwdw==" ]}) None eq_refl).
Defined.

(** X11. The call returns [undefined] only in the cookie branch, with
    [cookie] bound to a module whose [parse] gives a mapping without an
    [access_token] that is not empty; in Node.js, where [cookie] is not
    bound, it never returns [undefined]. *)
Theorem undefined_only_from_cookie_branch (g : Globals) (req : option requestObject)
    (cfg : option config) :
  outcome g req cfg = Normal VUndefined ->
  exists m c,
    cookie g = Some m /\
    header req (cookieKey cfg) = Some c /\
    c <> "" /\
    noToken (parse m c !! "access_token") /\
    noToken (bodyToken req) /\
    noToken (queryToken req).
Proof.
  rewrite outcome_chain. unfold chain.
  destruct (bearer _) eqn:Ha.
  { destruct (header req (authKey cfg)) as [h|]; [|discriminate].
    apply bearer_includes in Ha.
    destruct (secondField_exists h (includes_mem_space h Ha)) as [t Ht].
    change (default "" (Some h)) with h.
    rewrite (secondField_element h t Ht). discriminate. }
  destruct (truthy (valueOf (bodyToken req))) eqn:Hb.
  { destruct (bodyToken req); discriminate. }
  destruct (truthy (valueOf (queryToken req))) eqn:Hq.
  { destruct (queryToken req); discriminate. }
  destruct (header req (cookieKey cfg)) as [c|]; [|discriminate].
  destruct (truthy (valueOf (Some c))) eqn:Hc; [|discriminate].
  destruct (cookie g) as [m|]; [|discriminate].
  change (default "" (Some c)) with c. unfold lookupProp, ACCESS_TOKEN_PARAMETER.
  intros H. exists m, c. repeat split; auto using falsy_noToken, truthy_not_empty.
  destruct (parse m c !! "access_token") as [x|]; [|now left].
  cbn zeta in H. destruct (truthy (VString x)) eqn:Hx; [discriminate|].
  now apply (falsy_noToken (Some x)).
Qed.

Lemma undefined_only_from_cookie_branch_witness :
  exists m c,
    cookie {| cookie := Some noCookies |} = Some m /\
    header (headersOnly {[ "Cookie" := "other=x" ]}) (cookieKey None) = Some c /\
    c <> "" /\
    noToken (parse m c !! "access_token") /\
    noToken (bodyToken (headersOnly {[ "Cookie" := "other=x" ]})) /\
    noToken (queryToken (headersOnly {[ "Cookie" := "other=x" ]})).
Proof.
  exact (undefined_only_from_cookie_branch {| cookie := Some noCookies |}
           (headersOnly {[ "Cookie" := "other=x" ]}) None eq_refl).
Defined.

(** X12. A string that the call returns comes from one of the four
    sources: it is the second field of an authorization header that holds
    ["Bearer "], or it is not empty and is [body.access_token],
    [query.access_token] or the [access_token] that the module bound to
    [cookie] parses out of the cookie header.  The empty string is
    returned by the header branch only. *)
Theorem token_comes_from_a_source (g : Globals) (req : option requestObject)
    (cfg : option config) (t : string) :
  outcome g req cfg = Normal (VString t) ->
  (exists h, header req (authKey cfg) = Some h /\
             JsString.includes h "Bearer " /\ secondField h t) \/
  (t <> "" /\ bodyToken req = Some t) \/
  (t <> "" /\ queryToken req = Some t) \/
  (t <> "" /\ exists m c, cookie g = Some m /\
                           header req (cookieKey cfg) = Some c /\
                           parse m c !! "access_token" = Some t).
Proof.
  rewrite outcome_chain. unfold chain.
  destruct (bearer _) eqn:Ha.
  { destruct (header req (authKey cfg)) as [h|]; [|discriminate].
    apply bearer_includes in Ha.
    destruct (secondField_exists h (includes_mem_space h Ha)) as [u Hu].
    change (default "" (Some h)) with h.
    rewrite (secondField_element h u Hu).
    intros [= <-]. left. eauto. }
  destruct (truthy (valueOf (bodyToken req))) eqn:Hb.
  { destruct (bodyToken req) as [b|]; [|discriminate].
    intros [= <-]. right. left. auto using truthy_not_empty. }
  destruct (truthy (valueOf (queryToken req))) eqn:Hq.
  { destruct (queryToken req) as [q|]; [|discriminate].
    intros [= <-]. right. right. left. auto using truthy_not_empty. }
  destruct (header req (cookieKey cfg)) as [c|]; [|discriminate].
  destruct (truthy (valueOf (Some c))); [|discriminate].
  destruct (cookie g) as [m|]; [|discriminate].
  change (default "" (Some c)) with c.
  unfold lookupProp, ACCESS_TOKEN_PARAMETER. cbn zeta.
  destruct (parse m c !! "access_token") as [x|] eqn:Hx; [|discriminate].
  destruct (truthy (VString x)) eqn:Ht; [|discriminate].
  intros [= <-]. right. right. right.
  split; [now apply truthy_not_empty|]. exists m, c. auto.
Qed.

Lemma token_comes_from_a_source_witness :
  (exists h, header allSources (authKey None) = Some h /\
             JsString.includes h "Bearer " /\ secondField h "abc123") \/
  ("abc123" <> "" /\ bodyToken allSources = Some "abc123") \/
  ("abc123" <> "" /\ queryToken allSources = Some "abc123") \/
  ("abc123" <> "" /\ exists m c, cookie node = Some m /\
                                  header allSources (cookieKey None) = Some c /\
                                  parse m c !! "access_token" = Some "abc123").
Proof.
  exact (token_comes_from_a_source node allSources None "abc123" eq_refl).
Defined.

(** ** More on the string methods *)

Lemma join_cons (sep : ascii) (x y : string) (rest : list string) :
  join sep (x :: y :: rest) = x ++ String sep (join sep (y :: rest)).
Proof. reflexivity. Qed.

Lemma join_cons_head (sep c : ascii) (x : string) (rest : list string) :
  join sep (String c x :: rest) = String c (join sep (x :: rest)).
Proof. destruct rest; reflexivity. Qed.

(** X13. [split] cuts a string at every separator and nowhere else: no
    field holds the separator, and the fields joined by the separator
    give the string back. *)
Theorem split_join (sep : ascii) (s : string) :
  join sep (JsString.split sep s) = s /\
  Forall (fun field => JsString.mem sep field = false) (JsString.split sep s).
Proof.
  induction s as [|c s [IHj IHf]]; [now repeat constructor|].
  cbn [JsString.split]. destruct (Ascii.eqb c sep) eqn:Hc.
  - apply Ascii.eqb_eq in Hc as ->. split; [|now constructor].
    destruct (JsString.split sep s) as [|y rest] eqn:Hs;
      [now apply split_not_nil in Hs|].
    now rewrite join_cons, IHj.
  - destruct (JsString.split sep s) as [|y rest] eqn:Hs;
      [now apply split_not_nil in Hs|].
    split; [now rewrite join_cons_head, IHj|].
    inversion IHf as [|? ? Hy Hrest]; subst. constructor; [|exact Hrest].
    cbn. now rewrite Hc, Hy.
Qed.

(** X14. [indexOf] is [-1] exactly when the string searched for does not
    occur; otherwise it is the position of its first occurrence. *)
Theorem indexOf_first_occurrence (s t : string) :
  (JsString.indexOf s t = -1 <-> ~ JsString.includes s t) /\
  forall n : nat,
    JsString.indexOf s t = Z.of_nat n ->
    substring n (String.length t) s = t /\
    forall k : nat, (k < n)%nat -> substring k (String.length t) s <> t.
Proof.
  split.
  - rewrite <- indexOf_includes, <- Z.eqb_eq.
    destruct (JsString.indexOf s t =? -1); split; congruence.
  - unfold JsString.indexOf. intros n Hn.
    destruct (String.index 0 t s) as [m|] eqn:Hi; [|lia].
    apply Nat2Z.inj in Hn as ->. split.
    + exact (index_correct1 _ _ _ _ Hi).
    + intros k Hk. apply (index_correct2 _ _ _ _ Hi); lia.
Qed.

(** ** Examples *)

Example split_fields :
  JsString.split " " "Bearer abc123 extra" = ["Bearer"; "abc123"; "extra"].
Proof. reflexivity. Qed.

Example split_empty_field :
  JsString.split " " "Bearer  tok" = ["Bearer"; ""; "tok"].
Proof. reflexivity. Qed.

Example indexOf_found : JsString.indexOf "Basic x Bearer y" "Bearer " = 8.
Proof. reflexivity. Qed.

Example indexOf_missing : JsString.indexOf "Basic dXNlcjpwdw==" "Bearer " = -1.
Proof. reflexivity. Qed.

Example header_example :
  outcome node allSources None = Normal (VString "abc123").
Proof. reflexivity. Qed.

Example header_extra_example :
  outcome node (headersOnly {[ "Authorization" := "Bearer abc123 extra" ]}) None
  = Normal (VString "abc123").
Proof. reflexivity. Qed.

Example body_example :
  outcome node
    (Some {| query := None; headers := Some ∅;
             body := Some {[ "access_token" := "tok1" ]} |}) None
  = Normal (VString "tok1").
Proof. reflexivity. Qed.

Example query_example :
  outcome node
    (Some {| query := Some {[ "access_token" := "tok2" ]}; headers := Some ∅;
             body := Some ∅ |}) None
  = Normal (VString "tok2").
Proof. reflexivity. Qed.

Example empty_example : outcome node None None = Normal VNull.
Proof. reflexivity. Qed.

(** A computation over the store can change it: [setProp] does. *)
Example setProp_changes_store :
  fst (setProp Body "access_token" "x"
         {| requestView := headersOnly ∅; configuration := None |})
  <> {| requestView := headersOnly ∅; configuration := None |}.
Proof.
  intros H. apply (f_equal (fun st => bodyToken (requestView st))) in H.
  discriminate H.
Qed.
